(** * Pointer-chase latency kernel and log2 helpers

    A shallow embedding of [gpu_stride_kernel] and the [FAST_MODULO] macro
    (memory_latency.cu) and of the two bit utilities
    [log2_floor_power_of_two] / [log2_ceil_power_of_two].

    Machine integers are [Z] with the wrap-around written out.  The device
    buffer is a [list Z] read with stdpp's lookup and written with stdpp's
    insert; an access outside the buffer (undefined in the source) and a
    division by zero are faults.  The cycle counter is an oracle giving the
    n-th sample. *)

From Stdlib Require Import ZArith Lia.
From stdpp Require Import base tactics option list.

Local Open Scope Z_scope.

(** ** Fixed-width integers *)

Definition to_u32 (z : Z) : Z := z mod 2 ^ 32.
Definition to_u64 (z : Z) : Z := z mod 2 ^ 64.
Definition to_i32 (z : Z) : Z := (z + 2 ^ 31) mod 2 ^ 32 - 2 ^ 31.

Definition is_u32 (z : Z) : Prop := 0 <= z < 2 ^ 32.
Definition is_i32 (z : Z) : Prop := - 2 ^ 31 <= z < 2 ^ 31.

(** ** Bit utilities *)

Module Log2.

(** Leading zeros among the bits [n-1 .. 0] of [u], scanning from the top. *)
Fixpoint clz_from (n : nat) (u : Z) : Z :=
  match n with
  | O => 0
  | S k => if Z.testbit u (Z.of_nat k) then 0 else 1 + clz_from k u
  end.

(** Modelled from the spec: the intrinsic [__clz] is not part of the
    sources; the spec says both helpers are "defined in terms of counting
    leading zero bits of a 32-bit integer".  The argument is an [int], read
    as its 32-bit two's complement pattern; [__clz 0 = 32]. *)
Definition __clz (x : Z) : Z := clz_from 32 (to_u32 x).

(** [return 32 - __clz(x) - 1;] *)
Definition log2_floor_power_of_two (x : Z) : Z := 32 - __clz x - 1.

(** [return 32 - __clz(x - 1);] *)
Definition log2_ceil_power_of_two (x : Z) : Z := 32 - __clz (to_i32 (x - 1)).

Definition is_power_of_two (x : Z) : Prop := exists k : Z, 0 <= k /\ x = 2 ^ k.

End Log2.

(** ** Device state and the kernel monad *)

Inductive fault : Type :=
| OutOfBounds      (* access outside the buffer *)
| DivisionByZero   (* [sum / 0] *)
| OutOfFuel.       (* loop budget of the model exhausted *)

Inductive result (A : Type) : Type :=
| Ok (a : A)
| Fault (f : fault).
Arguments Ok {A} a.
Arguments Fault {A} f.

(** [global_mem] is the buffer [data] points to; [clock_reads] counts the
    samples of the cycle counter taken so far; [load_log] is ghost state,
    the values loaded from the buffer in program order (the positions the
    chain visits). *)
Record device : Type := Device {
  global_mem : list Z;
  clock_reads : nat;
  load_log : list Z
}.

Definition M (A : Type) : Type := device -> result (A * device).

Definition ret {A} (a : A) : M A := fun d => Ok (a, d).

Definition bind {A B} (m : M A) (k : A -> M B) : M B :=
  fun d => match m d with
           | Ok (a, d') => k a d'
           | Fault f => Fault f
           end.

Definition raise {A} (f : fault) : M A := fun _ => Fault f.

Declare Scope kernel_scope.
Delimit Scope kernel_scope with kernel.
Notation "'let*' x ':=' m 'in' k" := (bind m (fun x => k))
  (at level 10, x pattern, m at level 100, k at level 200) : kernel_scope.
Notation "m ';;' k" := (bind m (fun _ => k))
  (at level 100, k at level 200, right associativity) : kernel_scope.

Local Open Scope kernel_scope.

(** [data[pos]] as an rvalue. *)
Definition load (pos : Z) : M Z :=
  fun d =>
    if pos <? 0 then Fault OutOfBounds
    else match global_mem d !! Z.to_nat pos with
         | Some v => Ok (v, Device (global_mem d) (clock_reads d) (load_log d ++ [v]))
         | None => Fault OutOfBounds
         end.

(** [data[idx] = v]. *)
Definition store (idx : nat) (v : Z) : M unit :=
  fun d =>
    if decide (idx < length (global_mem d))%nat
    then Ok (tt, Device (<[idx := v]> (global_mem d)) (clock_reads d) (load_log d))
    else Fault OutOfBounds.

(** Unsigned 64-bit [a / b]. *)
Definition udiv64 (a b : Z) : M Z :=
  if b =? 0 then raise DivisionByZero else ret (a / b).

Section Kernel.

(** [clock n] is what the n-th call of [clock64()] returns. *)
Variable clock : nat -> Z.

(** [clock64()], converted on assignment to [uint64_t]. *)
Definition clock64 : M Z :=
  fun d => Ok (to_u64 (clock (clock_reads d)),
               Device (global_mem d) (S (clock_reads d)) (load_log d)).

(** [for (uint32_t i = ...; i < iterations; ++i) { pos = data[pos]; dependency += pos; }]
    from counter value [i]; yields the final [(pos, dependency)]. *)
Fixpoint chase (fuel : nat) (iterations i pos dependency : Z) : M (Z * Z) :=
  if i <? iterations then
    match fuel with
    | O => raise OutOfFuel
    | S fuel' =>
        let* pos := load pos in
        let dependency := to_u32 (dependency + pos) in
        chase fuel' iterations (to_u32 (i + 1)) pos dependency
    end
  else ret (pos, dependency).

(** One phase of the engine: the loop entered with [i = 0]. *)
Definition pointer_chase (iterations pos dependency : Z) : M (Z * Z) :=
  chase (Z.to_nat iterations) iterations 0 pos dependency.

(** [if (pos != 0) { pos = 0; }] *)
Definition reset_position (pos : Z) : Z :=
  if negb (pos =? 0) then 0 else pos.

Definition gpu_stride_kernel (iterations : Z) : M unit :=
  let sum := 0 in
  let pos := 0 in
  let dependency := 0 in
  (* Warm-up the cache *)
  let* (pos, dependency) := pointer_chase iterations pos dependency in
  (* Prevent optimization and reset position *)
  let pos := reset_position pos in
  let* start := clock64 in
  (* Do measurement *)
  let* (pos, dependency) := pointer_chase iterations pos dependency in
  let* stop := clock64 in
  let sum := to_u64 (sum + to_u64 (stop - start)) in
  (* Write result *)
  let* avg := udiv64 sum iterations in
  store 0 (to_u32 avg);;
  (* Prevent compiler optimization *)
  if pos =? 1 then store 1 dependency else ret tt.

(** The launch [gpu_stride_kernel<<<1,1>>>(data, iterations)]: one thread
    on a fresh device whose buffer is [data]. *)
Definition gpu_stride (data : list Z) (iterations : Z) : result device :=
  match gpu_stride_kernel iterations (Device data 0 []) with
  | Ok (_, d) => Ok d
  | Fault f => Fault f
  end.

End Kernel.

Arguments gpu_stride clock data iterations : simpl never.

(** ** The chain as a pure function of the buffer *)

(** The value of [data[pos]], when [pos] is inside the buffer. *)
Definition mem_at (data : list Z) (pos : Z) : option Z :=
  if pos <? 0 then None else data !! Z.to_nat pos.

(** The buffer-indexing function, total (0 outside the buffer). *)
Definition buffer_at (data : list Z) (pos : Z) : Z :=
  default 0 (mem_at data pos).

(** The positions reached by [n] hops from [pos], in order; [None] when a
    hop leaves the buffer. *)
Fixpoint walk (data : list Z) (n : nat) (pos : Z) : option (list Z) :=
  match n with
  | O => Some []
  | S k =>
      match mem_at data pos with
      | Some v => match walk data k v with
                  | Some hs => Some (v :: hs)
                  | None => None
                  end
      | None => None
      end
  end.

(** The [k]-th position of the chain entered at [pos]. *)
Definition orbit (data : list Z) (k : nat) (pos : Z) : Z :=
  Nat.iter k (buffer_at data) pos.

(** The positions [orbit 1 .. orbit n] reached by [n] hops from [pos]. *)
Definition hops (data : list Z) (n : nat) (pos : Z) : list Z :=
  (fun k => orbit data k pos) <$> seq 1 n.

Definition sum_Z (l : list Z) : Z := foldr Z.add 0 l.

Definition last_position (pos : Z) (hs : list Z) : Z := default pos (last hs).

(** Every buffer element is an index into the buffer. *)
Definition in_bounds (data : list Z) : Prop :=
  Forall (fun v => 0 <= v < Z.of_nat (length data)) data.

(** What the kernel needs of its buffer: slot 0 exists and every hop stays
    inside. *)
Definition valid_buffer (data : list Z) : Prop :=
  data <> [] /\ in_bounds data.

(** A permutation of [0, N) (in range, no repetition) whose chain from 0
    does not return to 0 before [N] hops: one cycle through all N slots. *)
Definition valid_single_cycle (data : list Z) : Prop :=
  in_bounds data /\ NoDup data /\
  Forall (fun k => orbit data k 0 <> 0) (seq 1 (length data - 1)).

(** Steps 6 and 7 of the timing harness as functions of the two raw
    samples: the elapsed-cycle count in 64 bits, and its quotient by the
    number of hops. *)
Definition elapsed_cycles (start stop : Z) : Z := to_u64 (to_u64 stop - to_u64 start).

Definition average_latency (start stop iterations : Z) : Z :=
  elapsed_cycles start stop / iterations.

(** A cycle counter for examples: the first sample is [start], every later
    one [stop]. *)
Definition fake_clock (start stop : Z) (n : nat) : Z :=
  match n with O => start | _ => stop end.


Local Close Scope kernel_scope.

(** ** Wrap-around arithmetic *)

Lemma to_u32_range z : is_u32 (to_u32 z).
Proof. unfold is_u32, to_u32. apply Z.mod_pos_bound. lia. Qed.

Lemma to_u32_small z : is_u32 z -> to_u32 z = z.
Proof. unfold is_u32, to_u32. intros H. apply Z.mod_small. exact H. Qed.

Lemma to_u32_add_l a b : to_u32 (to_u32 a + b) = to_u32 (a + b).
Proof. unfold to_u32. apply Zplus_mod_idemp_l. Qed.

Lemma to_u64_range z : 0 <= to_u64 z < 2 ^ 64.
Proof. unfold to_u64. apply Z.mod_pos_bound. lia. Qed.

Lemma to_u64_small z : 0 <= z < 2 ^ 64 -> to_u64 z = z.
Proof. unfold to_u64. intros H. apply Z.mod_small. exact H. Qed.

Lemma to_i32_small z : is_i32 z -> to_i32 z = z.
Proof.
  unfold is_i32, to_i32. intros H.
  rewrite Z.mod_small by lia. lia.
Qed.

Lemma elapsed_cycles_range start stop : 0 <= elapsed_cycles start stop < 2 ^ 64.
Proof. apply to_u64_range. Qed.

Lemma elapsed_cycles_monotonic start stop :
  0 <= start <= stop -> stop < 2 ^ 64 ->
  elapsed_cycles start stop = stop - start.
Proof.
  intros H1 H2. unfold elapsed_cycles.
  rewrite (to_u64_small start), (to_u64_small stop) by lia.
  apply to_u64_small. lia.
Qed.

(** ** The loop against the pure chain *)

Lemma device_eta d : Device (global_mem d) (clock_reads d) (load_log d) = d.
Proof. destruct d; reflexivity. Qed.

Lemma last_position_cons pos v hs :
  last_position v hs = last_position pos (v :: hs).
Proof.
  unfold last_position. rewrite last_cons.
  destruct (last hs); reflexivity.
Qed.

Lemma chase_walk fuel : forall iterations i pos dependency d,
  0 <= i <= iterations -> iterations < 2 ^ 32 -> is_u32 dependency ->
  (Z.to_nat (iterations - i) <= fuel)%nat ->
  chase fuel iterations i pos dependency d =
    match walk (global_mem d) (Z.to_nat (iterations - i)) pos with
    | Some hs =>
        Ok ((last_position pos hs, to_u32 (dependency + sum_Z hs)),
            Device (global_mem d) (clock_reads d) (load_log d ++ hs))
    | None => Fault OutOfBounds
    end.
Proof.
  induction fuel as [|fuel IH]; intros iterations i pos dependency d Hi Hit Hdep Hfuel.
  - assert (i = iterations) as -> by lia.
    rewrite Z.sub_diag. simpl. rewrite Z.ltb_irrefl.
    unfold ret, last_position. simpl.
    rewrite Z.add_0_r, to_u32_small, app_nil_r, device_eta by assumption.
    reflexivity.
  - simpl. destruct (Z.ltb_spec i iterations) as [Hlt|Hge].
    + assert (Z.to_nat (iterations - i) = S (Z.to_nat (iterations - (i + 1)))) as -> by lia.
      simpl. unfold bind, load, mem_at.
      destruct (pos <? 0); [reflexivity|].
      destruct (global_mem d !! Z.to_nat pos) as [v|]; [|reflexivity].
      rewrite (to_u32_small (i + 1)) by (unfold is_u32; lia).
      rewrite IH; [| lia | lia | apply to_u32_range | lia ]. simpl.
      destruct (walk (global_mem d) (Z.to_nat (iterations - (i + 1))) v) as [hs|];
        [|reflexivity].
      rewrite to_u32_add_l, <- (last_position_cons pos), <- app_assoc. simpl.
      rewrite Z.add_assoc. reflexivity.
    + assert (i = iterations) as -> by lia.
      rewrite Z.sub_diag. simpl.
      unfold ret, last_position. simpl.
      rewrite Z.add_0_r, to_u32_small, app_nil_r, device_eta by assumption.
      reflexivity.
Qed.

Lemma pointer_chase_walk iterations pos dependency d :
  0 <= iterations < 2 ^ 32 -> is_u32 dependency ->
  pointer_chase iterations pos dependency d =
    match walk (global_mem d) (Z.to_nat iterations) pos with
    | Some hs =>
        Ok ((last_position pos hs, to_u32 (dependency + sum_Z hs)),
            Device (global_mem d) (clock_reads d) (load_log d ++ hs))
    | None => Fault OutOfBounds
    end.
Proof.
  intros Hit Hdep. unfold pointer_chase.
  rewrite chase_walk by (try assumption; lia).
  rewrite Z.sub_0_r. reflexivity.
Qed.

Lemma reset_position_zero pos : reset_position pos = 0.
Proof.
  unfold reset_position. destruct (Z.eqb_spec pos 0); simpl; congruence.
Qed.

Lemma walk_length data : forall n pos hs,
  walk data n pos = Some hs -> length hs = n.
Proof.
  induction n as [|n IH]; simpl; intros pos hs H.
  - injection H as <-. reflexivity.
  - destruct (mem_at data pos) as [v|]; [|discriminate].
    destruct (walk data n v) as [hs'|] eqn:E; [|discriminate].
    injection H as <-. simpl. f_equal. eapply IH, E.
Qed.

Lemma walk_nonempty data n pos hs :
  (0 < n)%nat -> walk data n pos = Some hs -> (0 < length data)%nat.
Proof.
  destruct n as [|n]; [lia|]. intros _. simpl. unfold mem_at.
  destruct (pos <? 0); [discriminate|].
  destruct (data !! Z.to_nat pos) as [v|] eqn:E; [|discriminate].
  intros _. apply lookup_lt_Some in E. lia.
Qed.

(** The whole launch, as a function of the buffer and the two samples. *)
Lemma gpu_stride_run clock data iterations :
  0 < iterations < 2 ^ 32 ->
  gpu_stride clock data iterations =
    match walk data (Z.to_nat iterations) 0 with
    | None => Fault OutOfBounds
    | Some hs =>
        let avg := average_latency (clock 0%nat) (clock 1%nat) iterations in
        let data' := <[0%nat := to_u32 avg]> data in
        if last_position 0 hs =? 1 then
          if decide (1 < length data)%nat
          then Ok (Device (<[1%nat := to_u32 (sum_Z hs + sum_Z hs)]> data') 2 (hs ++ hs))
          else Fault OutOfBounds
        else Ok (Device data' 2 (hs ++ hs))
    end.
Proof.
  intros Hit. unfold gpu_stride, gpu_stride_kernel, bind.
  rewrite pointer_chase_walk by (unfold is_u32; lia). simpl global_mem.
  destruct (walk data (Z.to_nat iterations) 0) as [hs|] eqn:Hw; [|reflexivity].
  rewrite reset_position_zero. unfold clock64. simpl.
  rewrite pointer_chase_walk by (try apply to_u32_range; lia). simpl.
  rewrite Hw. simpl. unfold udiv64.
  destruct (Z.eqb_spec iterations 0) as [?|_]; [lia|].
  unfold ret, store. simpl.
  assert (0 < length data)%nat as Hlen by (eapply walk_nonempty, Hw; lia).
  destruct (decide (0 < length data)%nat) as [_|?]; [|lia].
  rewrite to_u32_add_l, !Z.add_0_l.
  rewrite (to_u64_small (to_u64 _)) by apply to_u64_range.
  fold (elapsed_cycles (clock 0%nat) (clock 1%nat)).
  fold (average_latency (clock 0%nat) (clock 1%nat) iterations).
  destruct (last_position 0 hs =? 1); [|reflexivity].
  simpl. rewrite length_insert.
  destruct (decide (1 < length data)%nat); reflexivity.
Qed.

(** ** Valid buffers: the chain never leaves the buffer *)

Lemma mem_at_in_bounds data pos :
  in_bounds data -> 0 <= pos < Z.of_nat (length data) ->
  exists v, mem_at data pos = Some v /\ 0 <= v < Z.of_nat (length data).
Proof.
  intros Hb Hpos. unfold mem_at.
  destruct (Z.ltb_spec pos 0) as [?|_]; [lia|].
  destruct (lookup_lt_is_Some_2 data (Z.to_nat pos)) as [v Hv]; [lia|].
  exists v. split; [exact Hv|].
  unfold in_bounds in Hb. rewrite Forall_lookup in Hb. exact (Hb _ _ Hv).
Qed.

Lemma orbit_succ_r data k pos :
  orbit data (S k) pos = orbit data k (buffer_at data pos).
Proof. unfold orbit. apply Nat.iter_succ_r. Qed.

Lemma walk_in_bounds data :
  in_bounds data -> forall n pos,
  0 <= pos < Z.of_nat (length data) ->
  walk data n pos = Some ((fun k => orbit data k pos) <$> seq 1 n).
Proof.
  intros Hb. induction n as [|n IH]; intros pos Hpos; [reflexivity|].
  destruct (mem_at_in_bounds data pos Hb Hpos) as (v & Hv & Hvr).
  cbn [walk]. rewrite Hv, (IH v Hvr).
  assert (buffer_at data pos = v) as Hbv by (unfold buffer_at; rewrite Hv; reflexivity).
  cbn [seq fmap list_fmap]. f_equal. f_equal.
  - unfold orbit. simpl. symmetry. exact Hbv.
  - rewrite <- (fmap_S_seq 1 n), <- list_fmap_compose.
    apply list_fmap_ext. intros _ k _. unfold compose.
    rewrite orbit_succ_r, Hbv. reflexivity.
Qed.

Lemma orbit_in_bounds data pos :
  in_bounds data -> 0 <= pos < Z.of_nat (length data) ->
  forall k, 0 <= orbit data k pos < Z.of_nat (length data).
Proof.
  intros Hb Hpos. induction k as [|k IH]; [exact Hpos|].
  destruct (mem_at_in_bounds data _ Hb IH) as (v & Hv & Hvr).
  unfold orbit in *. simpl.
  set (p := Nat.iter k (buffer_at data) pos) in *.
  unfold buffer_at. rewrite Hv. exact Hvr.
Qed.

Lemma last_position_orbit data pos n :
  last_position pos ((fun k => orbit data k pos) <$> seq 1 n) = orbit data n pos.
Proof.
  unfold last_position. destruct n as [|n]; [reflexivity|].
  rewrite seq_S, fmap_app. simpl. rewrite last_snoc. reflexivity.
Qed.

Lemma valid_buffer_zero data :
  valid_buffer data -> 0 <= 0 < Z.of_nat (length data).
Proof. intros [Hne _]. destruct data; [congruence|]. simpl. lia. Qed.

(** On a valid buffer a phase never faults. *)
Lemma walk_valid data n :
  valid_buffer data ->
  walk data n 0 = Some ((fun k => orbit data k 0) <$> seq 1 n).
Proof.
  intros Hv. apply walk_in_bounds; [apply Hv|]. apply valid_buffer_zero, Hv.
Qed.

Lemma valid_single_cycle_valid data :
  valid_single_cycle data -> (2 <= length data)%nat -> valid_buffer data.
Proof.
  intros (Hb & _ & _) Hlen. split; [|exact Hb].
  destruct data; [simpl in Hlen; lia | discriminate].
Qed.

(** What the launch leaves in the buffer: the average in slot 0 and, when
    the chain ended on position 1, the sink in slot 1. *)
Lemma gpu_stride_ok_inv clock data iterations d :
  0 < iterations < 2 ^ 32 ->
  gpu_stride clock data iterations = Ok d ->
  exists hs,
    walk data (Z.to_nat iterations) 0 = Some hs /\
    (0 < length data)%nat /\
    clock_reads d = 2%nat /\ load_log d = hs ++ hs /\
    let data' :=
      <[0%nat := to_u32 (average_latency (clock 0%nat) (clock 1%nat) iterations)]> data in
    global_mem d =
      if last_position 0 hs =? 1
      then <[1%nat := to_u32 (sum_Z hs + sum_Z hs)]> data'
      else data'.
Proof.
  intros Hit. rewrite gpu_stride_run by exact Hit.
  destruct (walk data (Z.to_nat iterations) 0) as [hs|] eqn:Hw; [|discriminate].
  intros H. exists hs. split; [reflexivity|].
  split; [eapply walk_nonempty, Hw; lia|].
  cbv zeta in H. destruct (last_position 0 hs =? 1).
  - destruct (decide (1 < length data)%nat); [|discriminate].
    injection H as <-. simpl. auto.
  - injection H as <-. simpl. auto.
Qed.

Lemma gpu_stride_fault_inv clock data iterations f :
  0 < iterations < 2 ^ 32 ->
  gpu_stride clock data iterations = Fault f -> f = OutOfBounds.
Proof.
  intros Hit. rewrite gpu_stride_run by exact Hit.
  destruct (walk data (Z.to_nat iterations) 0) as [hs|]; [|congruence].
  cbv zeta. destruct (last_position 0 hs =? 1); [|discriminate].
  destruct (decide (1 < length data)%nat); congruence.
Qed.

(** The loop budget of the model is never the reason a launch stops. *)
Lemma gpu_stride_never_out_of_fuel clock data iterations :
  is_u32 iterations -> gpu_stride clock data iterations <> Fault OutOfFuel.
Proof.
  intros [H0 H1] H. destruct (Z.eq_dec iterations 0) as [->|Hne].
  - discriminate H.
  - apply gpu_stride_fault_inv in H; [discriminate|lia].
Qed.

(** On a valid buffer the launch runs to completion. *)
Lemma gpu_stride_valid clock data iterations :
  valid_buffer data -> 0 < iterations < 2 ^ 32 ->
  let n := Z.to_nat iterations in
  let hs := hops data n 0 in
  let data' :=
    <[0%nat := to_u32 (average_latency (clock 0%nat) (clock 1%nat) iterations)]> data in
  gpu_stride clock data iterations =
    Ok (Device (if orbit data n 0 =? 1
                then <[1%nat := to_u32 (sum_Z hs + sum_Z hs)]> data'
                else data')
               2 (hs ++ hs)).
Proof.
  intros Hv Hit n hs data'. rewrite gpu_stride_run by exact Hit.
  rewrite (walk_valid data _ Hv). cbv zeta.
  rewrite last_position_orbit. fold n. fold (hops data n 0). fold hs. fold data'.
  destruct (Z.eqb_spec (orbit data n 0) 1) as [H1|_]; [|reflexivity].
  pose proof (orbit_in_bounds data 0 (proj2 Hv) (valid_buffer_zero data Hv) n) as Hb.
  destruct (decide (1 < length data)%nat); [reflexivity|lia].
Qed.

Lemma hops_length data n pos : length (hops data n pos) = n.
Proof. unfold hops. rewrite length_fmap. apply length_seq. Qed.

(** ** The timing harness *)

Lemma average_latency_truncates start stop iterations :
  0 < iterations ->
  let elapsed := elapsed_cycles start stop in
  let avg := average_latency start stop iterations in
  avg = elapsed ÷ iterations /\
  0 <= avg /\
  iterations * avg <= elapsed < iterations * avg + iterations.
Proof.
  intros Hit elapsed avg. subst avg. unfold average_latency. fold elapsed.
  pose proof (elapsed_cycles_range start stop) as Hr. fold elapsed in Hr.
  split; [symmetry; apply Z.quot_div_nonneg; lia|].
  split; [apply Z.div_pos; lia|].
  pose proof (Z.mul_div_le elapsed iterations Hit).
  pose proof (Z.mul_succ_div_gt elapsed iterations Hit). lia.
Qed.

(** C1. For every buffer and every [iterations > 0] (a [uint32_t]), the
    average latency is the elapsed-cycle count [stop - start] divided by
    [iterations] with the remainder dropped, and the launch stores it, as a
    32-bit value, in slot 0 whatever was there and wherever the chain ended;
    the launch fails only by leaving the buffer, which a valid buffer
    excludes. *)
Theorem measure_latency_average clock data iterations :
  0 < iterations < 2 ^ 32 ->
  let start := clock 0%nat in
  let stop := clock 1%nat in
  let elapsed := elapsed_cycles start stop in
  let avg := average_latency start stop iterations in
  (0 <= start <= stop -> stop < 2 ^ 64 -> elapsed = stop - start) /\
  avg = elapsed ÷ iterations /\
  iterations * avg <= elapsed < iterations * avg + iterations /\
  match gpu_stride clock data iterations with
  | Ok d =>
      length (global_mem d) = length data /\
      global_mem d !! 0%nat = Some (to_u32 avg) /\
      (avg < 2 ^ 32 -> global_mem d !! 0%nat = Some avg)
  | Fault f => f = OutOfBounds /\ ~ valid_buffer data
  end.
Proof.
  intros Hit start stop elapsed avg.
  destruct (average_latency_truncates start stop iterations) as (Hq & Hnn & Htr); [lia|].
  split; [apply elapsed_cycles_monotonic|].
  split; [exact Hq|]. split; [exact Htr|].
  destruct (gpu_stride clock data iterations) as [d|f] eqn:E.
  - destruct (gpu_stride_ok_inv _ _ _ _ Hit E) as (hs & _ & Hlen & _ & _ & Hmem).
    cbv zeta in Hmem. fold start stop avg in Hmem.
    assert (global_mem d !! 0%nat = Some (to_u32 avg)) as H0.
    { rewrite Hmem. destruct (last_position 0 hs =? 1).
      - rewrite list_lookup_insert_ne by lia. apply list_lookup_insert_eq. exact Hlen.
      - apply list_lookup_insert_eq. exact Hlen. }
    split; [|split; [exact H0|]].
    + rewrite Hmem. destruct (last_position 0 hs =? 1); rewrite ?length_insert; reflexivity.
    + intros Hsmall. rewrite H0, to_u32_small; [reflexivity|]. unfold is_u32. fold avg in Hnn. lia.
  - split; [eapply gpu_stride_fault_inv; eassumption|].
    intros Hv. rewrite gpu_stride_valid in E by assumption. discriminate.
Qed.

Lemma measure_latency_average_witness :
  0 < 5 < 2 ^ 32 /\
  let clock := fake_clock 100 612 in
  let data := [1; 2; 3; 0] in
  let iterations := 5 in
  let start := clock 0%nat in
  let stop := clock 1%nat in
  let elapsed := elapsed_cycles start stop in
  let avg := average_latency start stop iterations in
  (0 <= start <= stop -> stop < 2 ^ 64 -> elapsed = stop - start) /\
  avg = elapsed ÷ iterations /\
  iterations * avg <= elapsed < iterations * avg + iterations /\
  match gpu_stride clock data iterations with
  | Ok d =>
      length (global_mem d) = length data /\
      global_mem d !! 0%nat = Some (to_u32 avg) /\
      (avg < 2 ^ 32 -> global_mem d !! 0%nat = Some avg)
  | Fault f => f = OutOfBounds /\ ~ valid_buffer data
  end.
Proof.
  split; [lia|].
  apply (measure_latency_average (fake_clock 100 612) [1; 2; 3; 0] 5). lia.
Defined.

(** C9. The value stored in slot 0 is the 64-bit quotient reduced modulo
    2^32: an average of 2^32 or more wraps, and the launch still completes
    without a fault. *)
Theorem average_latency_wraps_u32 clock data iterations :
  valid_buffer data -> 0 < iterations < 2 ^ 32 ->
  let start := to_u64 (clock 0%nat) in
  let stop := to_u64 (clock 1%nat) in
  let quotient := ((stop - start) mod 2 ^ 64) / iterations in
  exists d,
    gpu_stride clock data iterations = Ok d /\
    global_mem d !! 0%nat = Some (quotient mod 2 ^ 32) /\
    0 <= quotient < 2 ^ 64 /\
    (2 ^ 32 <= quotient -> global_mem d !! 0%nat <> Some quotient).
Proof.
  intros Hv Hit start stop quotient.
  rewrite gpu_stride_valid by assumption. cbv zeta.
  eexists. split; [reflexivity|]. simpl global_mem.
  assert (0 < length data)%nat as Hlen by (pose proof (valid_buffer_zero data Hv); lia).
  set (data' := <[0%nat:=_]> data).
  assert (data' !! 0%nat = Some (quotient mod 2 ^ 32)) as H0.
  { subst data'. apply list_lookup_insert_eq. exact Hlen. }
  assert ((if orbit data (Z.to_nat iterations) 0 =? 1
           then <[1%nat:=to_u32 (sum_Z (hops data (Z.to_nat iterations) 0)
                                 + sum_Z (hops data (Z.to_nat iterations) 0))]> data'
           else data') !! 0%nat = Some (quotient mod 2 ^ 32)) as H0'.
  { destruct (orbit data (Z.to_nat iterations) 0 =? 1); [|exact H0].
    rewrite list_lookup_insert_ne by lia. exact H0. }
  split; [exact H0'|].
  assert (0 <= quotient < 2 ^ 64) as Hq.
  { subst quotient. pose proof (Z.mod_pos_bound (stop - start) (2 ^ 64) ltac:(lia)) as Hm.
    split; [apply Z.div_pos; lia|].
    apply Z.div_lt_upper_bound; [lia|]. nia. }
  split; [exact Hq|].
  intros Hbig. rewrite H0'. intros Heq. injection Heq as Heq.
  pose proof (Z.mod_pos_bound quotient (2 ^ 32) ltac:(lia)). lia.
Qed.

Lemma average_latency_wraps_u32_witness :
  valid_buffer [1; 2; 3; 0] /\ 0 < 2 < 2 ^ 32 /\
  exists d,
    gpu_stride (fake_clock 7 (2 ^ 33 + 17)) [1; 2; 3; 0] 2 = Ok d /\
    global_mem d !! 0%nat = Some 5 /\
    0 <= 2 ^ 32 + 5 < 2 ^ 64 /\
    (2 ^ 32 <= 2 ^ 32 + 5 -> global_mem d !! 0%nat <> Some (2 ^ 32 + 5)).
Proof.
  assert (valid_buffer [1; 2; 3; 0]) as Hv.
  { split; [discriminate|]. unfold in_bounds. repeat constructor; simpl; lia. }
  split; [exact Hv|]. split; [lia|].
  exact (average_latency_wraps_u32 (fake_clock 7 (2 ^ 33 + 17)) [1; 2; 3; 0] 2 Hv ltac:(lia)).
Defined.

(** C2 (as stated, refuted). On the 4-cycle [1;2;3;0] with 5 iterations the
    measurement phase ends on position 1, the guard holds and slot 1 is
    overwritten with the sink (14 instead of 2). *)
Lemma dependency_write_reached :
  gpu_stride (fake_clock 100 612) [1; 2; 3; 0] 5 =
    Ok (Device [102; 14; 3; 0] 2 [1; 2; 3; 0; 1; 1; 2; 3; 0; 1]) /\
  orbit [1; 2; 3; 0] 5 0 = 1 /\
  ([102; 14; 3; 0] : list Z) !! 1%nat <> ([1; 2; 3; 0] : list Z) !! 1%nat.
Proof.
  split; [vm_compute; reflexivity|].
  split; [vm_compute; reflexivity|].
  simpl. intros H. discriminate H.
Qed.

(** C2 (amended). On a valid buffer the guarded write happens exactly when
    the chain, re-entered at 0 for the measurement phase, stands on
    position 1 after [iterations] hops; slot 1 then receives the sink, and
    in every other run slot 1 keeps its value. *)
Theorem dependency_write_iff_chain_ends_at_one clock data iterations :
  valid_buffer data -> 0 < iterations < 2 ^ 32 ->
  let n := Z.to_nat iterations in
  let hs := hops data n 0 in
  exists d,
    gpu_stride clock data iterations = Ok d /\
    (orbit data n 0 <> 1 -> global_mem d !! 1%nat = data !! 1%nat) /\
    (orbit data n 0 = 1 ->
     global_mem d !! 1%nat = Some (to_u32 (sum_Z hs + sum_Z hs))).
Proof.
  intros Hv Hit n hs.
  rewrite gpu_stride_valid by assumption. cbv zeta. fold n. fold hs.
  eexists. split; [reflexivity|]. simpl global_mem.
  destruct (Z.eqb_spec (orbit data n 0) 1) as [H1|H1].
  - split; [intros; contradiction|]. intros _.
    apply list_lookup_insert_eq. rewrite length_insert.
    pose proof (orbit_in_bounds data 0 (proj2 Hv) (valid_buffer_zero data Hv) n). lia.
  - split; [|intros; contradiction]. intros _.
    apply list_lookup_insert_ne. lia.
Qed.

Lemma valid_buffer_4cycle : valid_buffer [1; 2; 3; 0].
Proof.
  split; [discriminate|]. unfold in_bounds. repeat constructor; simpl; lia.
Defined.

Lemma dependency_write_iff_chain_ends_at_one_witness :
  valid_buffer [1; 2; 3; 0] /\ 0 < 5 < 2 ^ 32 /\
  exists d,
    gpu_stride (fake_clock 100 612) [1; 2; 3; 0] 5 = Ok d /\
    (orbit [1; 2; 3; 0] 5 0 <> 1 ->
     global_mem d !! 1%nat = ([1; 2; 3; 0] : list Z) !! 1%nat) /\
    (orbit [1; 2; 3; 0] 5 0 = 1 -> global_mem d !! 1%nat = Some 14).
Proof.
  split; [exact valid_buffer_4cycle|]. split; [lia|].
  exact (dependency_write_iff_chain_ends_at_one (fake_clock 100 612) [1; 2; 3; 0] 5
           valid_buffer_4cycle ltac:(lia)).
Defined.

(** C3. For a single-cycle permutation of length at least 2 and
    [iterations > 0] the launch completes, slot 0 then holds a non-negative
    (32-bit) integer, and every slot of index 2 or more is as before. *)
Theorem measure_latency_frame clock data iterations :
  valid_single_cycle data -> (2 <= length data)%nat ->
  0 < iterations < 2 ^ 32 ->
  exists d v,
    gpu_stride clock data iterations = Ok d /\
    global_mem d !! 0%nat = Some v /\ 0 <= v < 2 ^ 32 /\
    length (global_mem d) = length data /\
    forall i : nat, (2 <= i)%nat -> global_mem d !! i = data !! i.
Proof.
  intros Hc Hlen Hit.
  pose proof (valid_single_cycle_valid data Hc Hlen) as Hv.
  rewrite gpu_stride_valid by assumption. cbv zeta.
  set (v := to_u32 (average_latency _ _ _)).
  eexists. exists v. split; [reflexivity|]. simpl global_mem.
  destruct (orbit data (Z.to_nat iterations) 0 =? 1).
  - split; [rewrite list_lookup_insert_ne by lia; apply list_lookup_insert_eq; lia|].
    split; [apply to_u32_range|].
    split; [rewrite !length_insert; reflexivity|].
    intros i Hi. rewrite !list_lookup_insert_ne by lia. reflexivity.
  - split; [apply list_lookup_insert_eq; lia|].
    split; [apply to_u32_range|].
    split; [rewrite length_insert; reflexivity|].
    intros i Hi. rewrite list_lookup_insert_ne by lia. reflexivity.
Qed.

Lemma valid_single_cycle_4cycle : valid_single_cycle [1; 2; 3; 0].
Proof.
  split; [exact (proj2 valid_buffer_4cycle)|].
  split.
  - repeat (constructor; [rewrite ?list_elem_of_In; simpl; intuition discriminate|]).
    constructor.
  - repeat constructor; vm_compute; discriminate.
Defined.

Lemma measure_latency_frame_witness :
  valid_single_cycle [1; 2; 3; 0] /\ (2 <= length [1; 2; 3; 0])%nat /\
  0 < 1000 < 2 ^ 32 /\
  exists d v,
    gpu_stride (fake_clock 100 40100) [1; 2; 3; 0] 1000 = Ok d /\
    global_mem d !! 0%nat = Some v /\ 0 <= v < 2 ^ 32 /\
    length (global_mem d) = length [1; 2; 3; 0] /\
    forall i : nat, (2 <= i)%nat -> global_mem d !! i = ([1; 2; 3; 0] : list Z) !! i.
Proof.
  split; [exact valid_single_cycle_4cycle|].
  split; [simpl; lia|]. split; [lia|].
  exact (measure_latency_frame (fake_clock 100 40100) [1; 2; 3; 0] 1000
           valid_single_cycle_4cycle ltac:(simpl; lia) ltac:(lia)).
Defined.

(** C6. With [iterations = 0] both loops are skipped and the average is
    computed by dividing by zero; with [iterations > 0] the division has a
    non-zero divisor, yields the quotient, and the launch never faults on
    it. *)
Theorem zero_iterations_divides_by_zero :
  (forall clock data, gpu_stride clock data 0 = Fault DivisionByZero) /\
  (forall a d, udiv64 a 0 d = Fault DivisionByZero) /\
  (forall clock data iterations,
     0 < iterations < 2 ^ 32 ->
     (forall a d, udiv64 a iterations d = Ok (a / iterations, d)) /\
     gpu_stride clock data iterations <> Fault DivisionByZero).
Proof.
  split; [intros clock data; reflexivity|].
  split; [intros a d; reflexivity|].
  intros clock data iterations Hit. split.
  - intros a d. unfold udiv64.
    destruct (Z.eqb_spec iterations 0); [lia|reflexivity].
  - intros H. apply gpu_stride_fault_inv in H; [discriminate|exact Hit].
Qed.

Lemma zero_iterations_divides_by_zero_witness :
  0 < 5 < 2 ^ 32 /\
  (forall a d, udiv64 a 5 d = Ok (a / 5, d)) /\
  gpu_stride (fake_clock 100 612) [1; 2; 3; 0] 5 <> Fault DivisionByZero.
Proof.
  split; [lia|].
  apply (proj2 (proj2 zero_iterations_divides_by_zero) (fake_clock 100 612) [1; 2; 3; 0] 5).
  lia.
Defined.

(** C8 (as stated, refuted). On [1;2;3;0] with 5 iterations the write to
    slot 1 occurs and stores 14, while the measurement phase alone (run from
    position 0 with an empty sink) accumulates 7: the 7 accumulated during
    warm-up is part of the stored value. *)
Lemma warm_up_sink_is_stored :
  gpu_stride (fake_clock 100 612) [1; 2; 3; 0] 5 =
    Ok (Device [102; 14; 3; 0] 2 [1; 2; 3; 0; 1; 1; 2; 3; 0; 1]) /\
  pointer_chase 5 0 0 (Device [1; 2; 3; 0] 0 []) =
    Ok ((1, 7), Device [1; 2; 3; 0] 0 [1; 2; 3; 0; 1]) /\
  pointer_chase 5 0 7 (Device [1; 2; 3; 0] 1 [1; 2; 3; 0; 1]) =
    Ok ((1, 14), Device [1; 2; 3; 0] 1 [1; 2; 3; 0; 1; 1; 2; 3; 0; 1]) /\
  ([102; 14; 3; 0] : list Z) !! 1%nat <> Some 7.
Proof.
  split; [vm_compute; reflexivity|].
  split; [vm_compute; reflexivity|].
  split; [vm_compute; reflexivity|].
  simpl. intros H. discriminate H.
Qed.

(** C8 (amended). The final position of the warm-up is discarded (the
    measurement phase re-enters the chain at 0) and the average in slot 0
    does not depend on the warm-up, but the sink is carried over: the
    warm-up leaves [w] in it, the measurement phase adds its own positions
    on top, and when the write to slot 1 occurs the stored value is
    [w] plus the measurement phase's accumulation, modulo 2^32. *)
Theorem warm_up_sink_carried_over clock data iterations :
  valid_buffer data -> 0 < iterations < 2 ^ 32 ->
  let n := Z.to_nat iterations in
  let hs := hops data n 0 in
  let m := sum_Z hs in
  exists p w d,
    pointer_chase iterations 0 0 (Device data 0 []) =
      Ok ((p, w), Device data 0 hs) /\
    w = to_u32 m /\
    pointer_chase iterations (reset_position p) w (Device data 1 hs) =
      Ok ((p, to_u32 (w + m)), Device data 1 (hs ++ hs)) /\
    gpu_stride clock data iterations = Ok d /\
    global_mem d !! 0%nat =
      Some (to_u32 (average_latency (clock 0%nat) (clock 1%nat) iterations)) /\
    (p = 1 -> global_mem d !! 1%nat = Some (to_u32 (w + m))).
Proof.
  intros Hv Hit n hs m.
  pose proof (orbit_in_bounds data 0 (proj2 Hv) (valid_buffer_zero data Hv) n) as Hb.
  exists (orbit data n 0), (to_u32 m). eexists.
  rewrite !pointer_chase_walk by (try apply to_u32_range; unfold is_u32; lia).
  rewrite reset_position_zero. simpl global_mem.
  rewrite (walk_valid data _ Hv), last_position_orbit.
  fold n. fold (hops data n 0). fold hs. fold m. simpl.
  split; [reflexivity|]. split; [reflexivity|]. split; [reflexivity|].
  rewrite gpu_stride_valid by assumption. cbv zeta.
  fold n. fold hs. fold m.
  split; [reflexivity|]. simpl global_mem.
  rewrite to_u32_add_l.
  destruct (Z.eqb_spec (orbit data n 0) 1) as [H1|H1].
  - split.
    + rewrite list_lookup_insert_ne by lia. apply list_lookup_insert_eq. lia.
    + intros _. apply list_lookup_insert_eq. rewrite length_insert. lia.
  - split; [apply list_lookup_insert_eq; lia|]. intros; contradiction.
Qed.

Lemma warm_up_sink_carried_over_witness :
  valid_buffer [1; 2; 3; 0] /\ 0 < 5 < 2 ^ 32 /\
  let clock := fake_clock 100 612 in
  let data := [1; 2; 3; 0] in
  let hs := hops data 5 0 in
  let m := sum_Z hs in
  exists p w d,
    pointer_chase 5 0 0 (Device data 0 []) = Ok ((p, w), Device data 0 hs) /\
    w = to_u32 m /\
    pointer_chase 5 (reset_position p) w (Device data 1 hs) =
      Ok ((p, to_u32 (w + m)), Device data 1 (hs ++ hs)) /\
    gpu_stride clock data 5 = Ok d /\
    global_mem d !! 0%nat =
      Some (to_u32 (average_latency (clock 0%nat) (clock 1%nat) 5)) /\
    (p = 1 -> global_mem d !! 1%nat = Some (to_u32 (w + m))).
Proof.
  split; [exact valid_buffer_4cycle|]. split; [lia|].
  exact (warm_up_sink_carried_over (fake_clock 100 612) [1; 2; 3; 0] 5
           valid_buffer_4cycle ltac:(lia)).
Defined.

(** ** The pointer-chase engine *)

Lemma hops_lookup data n pos k :
  (k < n)%nat -> hops data n pos !! k = Some (buffer_at data (orbit data k pos)).
Proof.
  intros Hk. unfold hops. rewrite list_lookup_fmap, lookup_seq_lt by exact Hk.
  reflexivity.
Qed.

(** C4. A phase entered at [pos] with sink [dependency] makes exactly
    [iterations] loads, the k-th one being [data[p]] for the position [p]
    reached so far; it ends on the [iterations]-fold iterate of the
    buffer-indexing function at [pos] and has added every position it
    reached to the sink (32-bit addition). *)
Theorem pointer_chase_iterates iterations pos dependency d :
  in_bounds (global_mem d) ->
  0 <= pos < Z.of_nat (length (global_mem d)) ->
  0 <= iterations < 2 ^ 32 -> is_u32 dependency ->
  let data := global_mem d in
  let n := Z.to_nat iterations in
  let hs := hops data n pos in
  pointer_chase iterations pos dependency d =
    Ok ((orbit data n pos, to_u32 (dependency + sum_Z hs)),
        Device data (clock_reads d) (load_log d ++ hs)) /\
  length hs = n /\
  (forall k, (k < n)%nat -> hs !! k = Some (buffer_at data (orbit data k pos))) /\
  orbit data n pos = Nat.iter n (buffer_at data) pos.
Proof.
  intros Hb Hpos Hit Hdep data n hs.
  split; [|split; [apply hops_length|split; [intros k; apply hops_lookup|reflexivity]]].
  rewrite pointer_chase_walk by assumption. fold data n.
  rewrite (walk_in_bounds data Hb n pos Hpos), last_position_orbit.
  reflexivity.
Qed.

Lemma pointer_chase_iterates_witness :
  let d := Device [1; 2; 3; 0] 1 [] in
  in_bounds (global_mem d) /\
  0 <= 2 < Z.of_nat (length (global_mem d)) /\
  0 <= 7 < 2 ^ 32 /\ is_u32 40 /\
  let data := global_mem d in
  let n := Z.to_nat 7 in
  let hs := hops data n 2 in
  pointer_chase 7 2 40 d =
    Ok ((orbit data n 2, to_u32 (40 + sum_Z hs)),
        Device data (clock_reads d) (load_log d ++ hs)) /\
  length hs = n /\
  (forall k, (k < n)%nat -> hs !! k = Some (buffer_at data (orbit data k 2))) /\
  orbit data n 2 = Nat.iter n (buffer_at data) 2.
Proof.
  intros d.
  split; [exact (proj2 valid_buffer_4cycle)|].
  split; [simpl; lia|]. split; [lia|]. split; [unfold is_u32; lia|].
  apply (pointer_chase_iterates 7 2 40 d).
  - exact (proj2 valid_buffer_4cycle).
  - simpl; lia.
  - lia.
  - unfold is_u32; lia.
Defined.

(** C5. Whatever position the warm-up ends on, the reset makes it 0; the
    measurement phase therefore re-enters the chain where the warm-up did
    and, the buffer being untouched in between, loads the same sequence of
    positions and ends on the same position. *)
Theorem measurement_replays_warm_up clock data iterations :
  valid_buffer data -> 0 < iterations < 2 ^ 32 ->
  (forall p, reset_position p = 0) /\
  exists hs p w m d,
    length hs = Z.to_nat iterations /\
    pointer_chase iterations 0 0 (Device data 0 []) =
      Ok ((p, w), Device data 0 hs) /\
    pointer_chase iterations (reset_position p) w (Device data 1 hs) =
      Ok ((p, m), Device data 1 (hs ++ hs)) /\
    gpu_stride clock data iterations = Ok d /\
    load_log d = hs ++ hs.
Proof.
  intros Hv Hit. split; [exact reset_position_zero|].
  exists (hops data (Z.to_nat iterations) 0). do 3 eexists.
  eexists. split; [apply hops_length|].
  rewrite !pointer_chase_walk by (try apply to_u32_range; unfold is_u32; lia).
  rewrite reset_position_zero. simpl global_mem.
  rewrite (walk_valid data _ Hv).
  fold (hops data (Z.to_nat iterations) 0). simpl.
  split; [reflexivity|]. split; [reflexivity|].
  rewrite gpu_stride_valid by assumption. cbv zeta.
  split; reflexivity.
Qed.

Lemma measurement_replays_warm_up_witness :
  valid_buffer [1; 2; 3; 0] /\ 0 < 6 < 2 ^ 32 /\
  (forall p, reset_position p = 0) /\
  exists hs p w m d,
    length hs = Z.to_nat 6 /\
    pointer_chase 6 0 0 (Device [1; 2; 3; 0] 0 []) =
      Ok ((p, w), Device [1; 2; 3; 0] 0 hs) /\
    pointer_chase 6 (reset_position p) w (Device [1; 2; 3; 0] 1 hs) =
      Ok ((p, m), Device [1; 2; 3; 0] 1 (hs ++ hs)) /\
    gpu_stride (fake_clock 100 612) [1; 2; 3; 0] 6 = Ok d /\
    load_log d = hs ++ hs.
Proof.
  split; [exact valid_buffer_4cycle|]. split; [lia|].
  exact (measurement_replays_warm_up (fake_clock 100 612) [1; 2; 3; 0] 6
           valid_buffer_4cycle ltac:(lia)).
Defined.

(** ** Bit utilities *)

Lemma clz_from_zero n : Log2.clz_from n 0 = Z.of_nat n.
Proof.
  induction n as [|n IH]; [reflexivity|].
  cbn [Log2.clz_from]. rewrite Z.bits_0, IH. lia.
Qed.

(** Below [2^n], the leading zeros and the bit length add up to [n]. *)
Lemma clz_from_log2 n : forall u,
  0 < u < 2 ^ Z.of_nat n ->
  Log2.clz_from n u = Z.of_nat n - 1 - Z.log2 u.
Proof.
  induction n as [|n IH]; intros u Hu.
  - simpl in Hu. lia.
  - cbn [Log2.clz_from].
    destruct (Z.lt_ge_cases u (2 ^ Z.of_nat n)) as [Hlt|Hge].
    + rewrite Z.bits_above_log2; [|lia|apply Z.log2_lt_pow2; lia].
      rewrite IH by lia. lia.
    + assert (Z.log2 u = Z.of_nat n) as Hl.
      { apply Z.log2_unique; [lia|].
        replace (Z.of_nat n + 1) with (Z.of_nat (S n)) by lia. lia. }
      rewrite <- Hl, Z.bit_log2 by lia. lia.
Qed.

Lemma log2_floor_is_log2 x :
  1 <= x < 2 ^ 31 -> Log2.log2_floor_power_of_two x = Z.log2 x.
Proof.
  intros Hx. unfold Log2.log2_floor_power_of_two, Log2.__clz.
  rewrite to_u32_small by (unfold is_u32; lia).
  rewrite clz_from_log2 by (change (Z.of_nat 32) with 32; lia). lia.
Qed.

Lemma log2_ceil_is_log2_up x :
  1 <= x < 2 ^ 31 -> Log2.log2_ceil_power_of_two x = Z.log2_up x.
Proof.
  intros Hx. unfold Log2.log2_ceil_power_of_two, Log2.__clz.
  rewrite to_i32_small by (unfold is_i32; lia).
  rewrite to_u32_small by (unfold is_u32; lia).
  destruct (Z.eq_dec x 1) as [->|Hne].
  - reflexivity.
  - rewrite clz_from_log2 by (change (Z.of_nat 32) with 32; lia).
    rewrite Z.log2_up_eqn by lia.
    replace (Z.pred x) with (x - 1) by lia. lia.
Qed.

(** C7. For [x >= 1] (an [int]) the two helpers bracket the binary
    logarithm, [2^floor <= x <= 2^ceil], being the floor and the ceiling of
    it; both bounds are attained, and the two results agree, exactly when
    [x] is a power of two; and the values at 1, 8 and 9 are as listed. *)
Theorem log2_floor_ceil_bracket :
  (forall x, 1 <= x < 2 ^ 31 ->
     let f := Log2.log2_floor_power_of_two x in
     let c := Log2.log2_ceil_power_of_two x in
     f = Z.log2 x /\ c = Z.log2_up x /\
     0 <= f <= c /\ 2 ^ f <= x <= 2 ^ c /\
     ((2 ^ f = x /\ x = 2 ^ c) <-> Log2.is_power_of_two x) /\
     (f = c <-> Log2.is_power_of_two x)) /\
  Log2.log2_floor_power_of_two 1 = 0 /\
  Log2.log2_ceil_power_of_two 1 = 0 /\
  Log2.log2_floor_power_of_two 8 = 3 /\
  Log2.log2_ceil_power_of_two 8 = 3 /\
  Log2.log2_floor_power_of_two 9 = 3 /\
  Log2.log2_ceil_power_of_two 9 = 4.
Proof.
  split; [|repeat split; reflexivity].
  intros x Hx f c.
  assert (f = Z.log2 x) as Hf by (apply log2_floor_is_log2; exact Hx).
  assert (c = Z.log2_up x) as Hc by (apply log2_ceil_is_log2_up; exact Hx).
  pose proof (Z.log2_nonneg x) as Hnn.
  pose proof (Z.le_log2_log2_up x) as Hle.
  pose proof (Z.log2_spec x ltac:(lia)) as [Hlo _].
  assert (x <= 2 ^ Z.log2_up x) as Hup.
  { destruct (Z.eq_dec x 1) as [->|Hne]; [reflexivity|].
    apply Z.log2_up_spec. lia. }
  assert (Log2.is_power_of_two x -> Z.log2 x = Z.log2_up x /\ 2 ^ Z.log2 x = x) as Hpow.
  { intros (k & Hk & ->). rewrite Z.log2_pow2, Z.log2_up_pow2 by exact Hk. split; reflexivity. }
  rewrite Hf, Hc.
  split; [reflexivity|]. split; [reflexivity|].
  split; [lia|]. split; [lia|]. split; split.
  - intros [H1 _]. exists (Z.log2 x). split; [exact Hnn|]. symmetry. exact H1.
  - intros Hp. destruct (Hpow Hp) as [He H2]. split; [exact H2|]. rewrite <- He. symmetry. exact H2.
  - intros He. exists (Z.log2 x). split; [exact Hnn|]. rewrite <- He in Hup. lia.
  - intros Hp. apply Hpow, Hp.
Qed.

Lemma log2_floor_ceil_bracket_witness :
  1 <= 9 < 2 ^ 31 /\
  let f := Log2.log2_floor_power_of_two 9 in
  let c := Log2.log2_ceil_power_of_two 9 in
  f = Z.log2 9 /\ c = Z.log2_up 9 /\
  0 <= f <= c /\ 2 ^ f <= 9 <= 2 ^ c /\
  ((2 ^ f = 9 /\ 9 = 2 ^ c) <-> Log2.is_power_of_two 9) /\
  (f = c <-> Log2.is_power_of_two 9).
Proof.
  split; [lia|].
  apply (proj1 log2_floor_ceil_bracket 9). lia.
Defined.

(** C10. For [x >= 2] (an [int]) the ceiling helper at [x] is the floor
    helper at [x - 1] plus one: both count the leading zeros of [x - 1]. *)
Theorem log2_ceil_is_floor_pred_succ x :
  2 <= x < 2 ^ 31 ->
  Log2.log2_ceil_power_of_two x = Log2.log2_floor_power_of_two (x - 1) + 1.
Proof.
  intros Hx. unfold Log2.log2_ceil_power_of_two, Log2.log2_floor_power_of_two.
  rewrite to_i32_small by (unfold is_i32; lia). lia.
Qed.

Lemma log2_ceil_is_floor_pred_succ_witness :
  2 <= 9 < 2 ^ 31 /\
  Log2.log2_ceil_power_of_two 9 = Log2.log2_floor_power_of_two (9 - 1) + 1.
Proof.
  split; [lia|]. apply (log2_ceil_is_floor_pred_succ 9). lia.
Defined.

(** * Further properties of the code *)

(** ** [FAST_MODULO] *)









(** ** The launch on arbitrary buffers *)

(** X4. A launch with [iterations > 0] either completes or stops on an
    access outside the buffer.  It completes exactly when the chain entered
    at 0 stays inside the buffer for [iterations] hops and, if it ends on
    position 1, the buffer has a slot 1 to receive the sink: reads that all
    stay inside do not make the final write safe. *)
Theorem gpu_stride_completes_iff clock data iterations :
  0 < iterations < 2 ^ 32 ->
  (gpu_stride clock data iterations = Fault OutOfBounds \/
   exists d, gpu_stride clock data iterations = Ok d) /\
  ((exists d, gpu_stride clock data iterations = Ok d) <->
   exists hs, walk data (Z.to_nat iterations) 0 = Some hs /\
              (last_position 0 hs = 1 -> (2 <= length data)%nat)).
Proof.
  intros Hit. rewrite gpu_stride_run by exact Hit.
  destruct (walk data (Z.to_nat iterations) 0) as [hs|].
  - cbv zeta. destruct (Z.eqb_spec (last_position 0 hs) 1) as [H1|H1].
    + destruct (decide (1 < length data)%nat) as [Hl|Hl].
      * split; [right; eexists; reflexivity|].
        split; [intros _; exists hs; split; [reflexivity|lia]|intros _; eexists; reflexivity].
      * split; [left; reflexivity|].
        split; [intros [d Hd]; discriminate|].
        intros (hs' & Hhs & Hlen). injection Hhs as <-. specialize (Hlen H1). lia.
    + split; [right; eexists; reflexivity|].
      split; [intros _; exists hs; split; [reflexivity|intros; contradiction]
             |intros _; eexists; reflexivity].
  - split; [left; reflexivity|].
    split; [intros [d Hd]; discriminate|intros (hs & Hhs & _); discriminate].
Qed.

Lemma gpu_stride_completes_iff_witness :
  0 < 1 < 2 ^ 32 /\
  (gpu_stride (fake_clock 0 9) [1] 1 = Fault OutOfBounds \/
   exists d, gpu_stride (fake_clock 0 9) [1] 1 = Ok d) /\
  ((exists d, gpu_stride (fake_clock 0 9) [1] 1 = Ok d) <->
   exists hs, walk [1] (Z.to_nat 1) 0 = Some hs /\
              (last_position 0 hs = 1 -> (2 <= length ([1%Z] : list Z))%nat)).
Proof.
  split; [lia|].
  apply (gpu_stride_completes_iff (fake_clock 0 9) [1] 1). lia.
Defined.

Lemma walk_some_in_bounds data n pos :
  in_bounds data -> 0 <= pos < Z.of_nat (length data) -> walk data n pos <> None.
Proof. intros Hb Hp. rewrite walk_in_bounds by assumption. discriminate. Qed.

(** X5. On any buffer a phase only reads: when it returns, the buffer and
    the number of clock samples are as before, the sink is a 32-bit value
    and exactly [iterations] loads were made; when it does not, it stopped on
    an access outside the buffer, which cannot happen if every element is an
    index into the buffer and the phase is entered inside it. *)
Theorem pointer_chase_reads_only iterations pos dependency d :
  0 <= iterations < 2 ^ 32 -> is_u32 dependency ->
  match pointer_chase iterations pos dependency d with
  | Ok ((p, s), d') =>
      global_mem d' = global_mem d /\ clock_reads d' = clock_reads d /\
      is_u32 s /\
      exists hs, load_log d' = load_log d ++ hs /\ length hs = Z.to_nat iterations
  | Fault f =>
      f = OutOfBounds /\
      ~ (in_bounds (global_mem d) /\ 0 <= pos < Z.of_nat (length (global_mem d)))
  end.
Proof.
  intros Hit Hdep. rewrite pointer_chase_walk by assumption.
  destruct (walk (global_mem d) (Z.to_nat iterations) pos) as [hs|] eqn:Hw.
  - split; [reflexivity|]. split; [reflexivity|]. split; [apply to_u32_range|].
    exists hs. split; [reflexivity|]. eapply walk_length, Hw.
  - split; [reflexivity|]. intros [Hb Hp].
    exact (walk_some_in_bounds _ _ _ Hb Hp Hw).
Qed.

Lemma pointer_chase_reads_only_witness :
  0 <= 3 < 2 ^ 32 /\ is_u32 0 /\
  match pointer_chase 3 0 0 (Device [1; 2; 7; 0] 0 []) with
  | Ok ((p, s), d') =>
      global_mem d' = [1; 2; 7; 0] /\ clock_reads d' = 0%nat /\
      is_u32 s /\
      exists hs, load_log d' = [] ++ hs /\ length hs = Z.to_nat 3
  | Fault f =>
      f = OutOfBounds /\
      ~ (in_bounds [1; 2; 7; 0] /\ 0 <= 0 < Z.of_nat (length ([1; 2; 7; 0] : list Z)))
  end.
Proof.
  split; [lia|]. split; [unfold is_u32; lia|].
  apply (pointer_chase_reads_only 3 0 0 (Device [1; 2; 7; 0] 0 []));
    [lia|unfold is_u32; lia].
Defined.

Lemma sum_Z_app l1 l2 : sum_Z (l1 ++ l2) = sum_Z l1 + sum_Z l2.
Proof.
  unfold sum_Z. induction l1 as [|x l1 IH]; simpl; [reflexivity|].
  rewrite IH. lia.
Qed.

Lemma last_position_app pos h1 h2 :
  last_position pos (h1 ++ h2) = last_position (last_position pos h1) h2.
Proof.
  unfold last_position. rewrite last_app. destruct (last h2); reflexivity.
Qed.

Lemma walk_add data a : forall b pos,
  walk data (a + b) pos =
    match walk data a pos with
    | Some h1 =>
        match walk data b (last_position pos h1) with
        | Some h2 => Some (h1 ++ h2)
        | None => None
        end
    | None => None
    end.
Proof.
  induction a as [|a IH]; intros b pos.
  - simpl. unfold last_position. simpl. destruct (walk data b pos); reflexivity.
  - cbn [Nat.add walk]. destruct (mem_at data pos) as [v|]; [|reflexivity].
    rewrite IH. destruct (walk data a v) as [h1|]; [|reflexivity].
    rewrite <- (last_position_cons pos).
    destruct (walk data b (last_position v h1)); reflexivity.
Qed.

(** X6. Phases compose: on any buffer, [a + b] hops are [a] hops followed by
    [b] hops entered at the position reached, with the sink carried over;
    either both sides return the same state or both stop. *)
Theorem pointer_chase_compose a b pos dependency d :
  0 <= a -> 0 <= b -> a + b < 2 ^ 32 -> is_u32 dependency ->
  pointer_chase (a + b) pos dependency d =
    bind (pointer_chase a pos dependency)
         (fun r => pointer_chase b (fst r) (snd r)) d.
Proof.
  intros Ha Hb Hab Hdep. unfold bind.
  rewrite (pointer_chase_walk (a + b)), (pointer_chase_walk a) by (try assumption; lia).
  rewrite Z2Nat.inj_add, walk_add by assumption.
  destruct (walk (global_mem d) (Z.to_nat a) pos) as [h1|]; [|reflexivity].
  cbn [fst snd]. rewrite pointer_chase_walk by (try apply to_u32_range; lia).
  cbn [global_mem clock_reads load_log].
  destruct (walk (global_mem d) (Z.to_nat b) (last_position pos h1)) as [h2|];
    [|reflexivity].
  rewrite last_position_app, sum_Z_app, to_u32_add_l, app_assoc, Z.add_assoc.
  reflexivity.
Qed.

Lemma pointer_chase_compose_witness :
  0 <= 3 /\ 0 <= 4 /\ 3 + 4 < 2 ^ 32 /\ is_u32 5 /\
  pointer_chase (3 + 4) 0 5 (Device [1; 2; 3; 0] 0 []) =
    bind (pointer_chase 3 0 5)
         (fun r => pointer_chase 4 (fst r) (snd r)) (Device [1; 2; 3; 0] 0 []).
Proof.
  split; [lia|]. split; [lia|]. split; [lia|]. split; [unfold is_u32; lia|].
  apply (pointer_chase_compose 3 4 0 5 (Device [1; 2; 3; 0] 0 []));
    [lia|lia|lia|unfold is_u32; lia].
Defined.

Lemma walk_self_loop rest n : walk (0 :: rest) n 0 = Some (replicate n 0).
Proof.
  induction n as [|n IH]; [reflexivity|].
  cbn [walk]. change (mem_at (0 :: rest) 0) with (Some 0).
  cbn iota. rewrite IH. reflexivity.
Qed.

Lemma last_position_replicate n : last_position 0 (replicate n 0) = 0.
Proof.
  induction n as [|n IH]; [reflexivity|].
  cbn [replicate]. rewrite <- (last_position_cons 0). exact IH.
Qed.

(** X7. If slot 0 points to itself the chain never leaves it: whatever the
    other slots hold, valid indices or not, the launch completes, every load
    reads slot 0, and only slot 0 is written. *)
Theorem self_loop_at_entry clock rest iterations :
  0 < iterations < 2 ^ 32 ->
  let n := Z.to_nat iterations in
  gpu_stride clock (0 :: rest) iterations =
    Ok (Device (to_u32 (average_latency (clock 0%nat) (clock 1%nat) iterations) :: rest)
               2 (replicate n 0 ++ replicate n 0)).
Proof.
  intros Hit n. subst n. rewrite gpu_stride_run by exact Hit.
  rewrite walk_self_loop. cbv zeta.
  rewrite last_position_replicate. reflexivity.
Qed.

Lemma self_loop_at_entry_witness :
  0 < 3 < 2 ^ 32 /\
  let clock := fake_clock 10 40 in
  let n := Z.to_nat 3 in
  gpu_stride clock (0 :: [77; -5]) 3 =
    Ok (Device (to_u32 (average_latency (clock 0%nat) (clock 1%nat) 3) :: [77; -5])
               2 (replicate n 0 ++ replicate n 0)).
Proof.
  split; [lia|].
  apply (self_loop_at_entry (fake_clock 10 40) [77; -5] 3). lia.
Defined.

Lemma gpu_stride_valid_slot0 clock data iterations :
  valid_buffer data -> 0 < iterations < 2 ^ 32 ->
  exists d,
    gpu_stride clock data iterations = Ok d /\
    length (global_mem d) = length data /\
    global_mem d !! 0%nat =
      Some (to_u32 (average_latency (clock 0%nat) (clock 1%nat) iterations)).
Proof.
  intros Hv Hit. rewrite gpu_stride_valid by assumption. cbv zeta.
  eexists. split; [reflexivity|]. simpl global_mem.
  assert (0 < length data)%nat by (pose proof (valid_buffer_zero data Hv); lia).
  destruct (orbit data (Z.to_nat iterations) 0 =? 1).
  - rewrite !length_insert. split; [reflexivity|].
    rewrite list_lookup_insert_ne by lia. apply list_lookup_insert_eq. lia.
  - rewrite length_insert. split; [reflexivity|].
    apply list_lookup_insert_eq. lia.
Qed.

(** X8. The buffer a launch returns is not an input for another one: the
    average now sits in slot 0 as the entry of the chain, and when it is not
    an index into the buffer any further launch of two or more hops stops on
    an access outside the buffer. *)
Theorem relaunch_on_result_faults clock clock' data iterations iterations' :
  valid_buffer data -> 0 < iterations < 2 ^ 32 -> 2 <= iterations' < 2 ^ 32 ->
  Z.of_nat (length data) <=
    to_u32 (average_latency (clock 0%nat) (clock 1%nat) iterations) ->
  exists d,
    gpu_stride clock data iterations = Ok d /\
    gpu_stride clock' (global_mem d) iterations' = Fault OutOfBounds.
Proof.
  intros Hv Hit Hit' Hbig.
  destruct (gpu_stride_valid_slot0 clock data iterations Hv Hit) as (d & Hd & Hlen & H0).
  exists d. split; [exact Hd|].
  rewrite gpu_stride_run by lia.
  assert (exists k, Z.to_nat iterations' = S (S k)) as [k ->].
  { exists (Z.to_nat iterations' - 2)%nat. lia. }
  cbn [walk]. unfold mem_at at 1. change (0 <? 0) with false. cbn iota.
  change (Z.to_nat 0) with 0%nat. rewrite H0.
  set (v := to_u32 _) in *. unfold mem_at.
  destruct (v <? 0); [reflexivity|].
  rewrite (lookup_ge_None_2 (global_mem d) (Z.to_nat v)) by lia.
  reflexivity.
Qed.

Lemma relaunch_on_result_faults_witness :
  valid_buffer [1; 2; 3; 0] /\ 0 < 5 < 2 ^ 32 /\ 2 <= 2 < 2 ^ 32 /\
  Z.of_nat (length ([1; 2; 3; 0] : list Z)) <=
    to_u32 (average_latency (fake_clock 100 612 0%nat) (fake_clock 100 612 1%nat) 5) /\
  exists d,
    gpu_stride (fake_clock 100 612) [1; 2; 3; 0] 5 = Ok d /\
    gpu_stride (fake_clock 0 8) (global_mem d) 2 = Fault OutOfBounds.
Proof.
  split; [exact valid_buffer_4cycle|]. split; [lia|]. split; [lia|].
  split; [vm_compute; discriminate|].
  apply (relaunch_on_result_faults (fake_clock 100 612) (fake_clock 0 8) [1; 2; 3; 0] 5 2);
    [exact valid_buffer_4cycle|lia|lia|vm_compute; discriminate].
Defined.

(** X9. If the counter went backwards between the two samples the
    subtraction wraps: the launch completes all the same and reports the
    quotient of [2^64 - (start - stop)], reduced to 32 bits. *)
Theorem counter_wraparound clock data iterations :
  valid_buffer data -> 0 < iterations < 2 ^ 32 ->
  0 <= clock 1%nat < clock 0%nat -> clock 0%nat < 2 ^ 64 ->
  exists d,
    gpu_stride clock data iterations = Ok d /\
    global_mem d !! 0%nat =
      Some (((2 ^ 64 - (clock 0%nat - clock 1%nat)) / iterations) mod 2 ^ 32).
Proof.
  intros Hv Hit Hback Hmax.
  destruct (gpu_stride_valid_slot0 clock data iterations Hv Hit) as (d & Hd & _ & H0).
  exists d. split; [exact Hd|]. rewrite H0.
  assert (elapsed_cycles (clock 0%nat) (clock 1%nat)
          = 2 ^ 64 - (clock 0%nat - clock 1%nat)) as He.
  { unfold elapsed_cycles.
    rewrite (to_u64_small (clock 0%nat)), (to_u64_small (clock 1%nat)) by lia.
    unfold to_u64.
    replace (clock 1%nat - clock 0%nat)
      with ((2 ^ 64 - (clock 0%nat - clock 1%nat)) + (-1) * 2 ^ 64) by lia.
    rewrite Z.mod_add by lia. apply Z.mod_small. lia. }
  unfold average_latency. rewrite He. reflexivity.
Qed.

Lemma counter_wraparound_witness :
  valid_buffer [1; 2; 3; 0] /\ 0 < 4 < 2 ^ 32 /\
  0 <= fake_clock 50 10 1%nat < fake_clock 50 10 0%nat /\
  fake_clock 50 10 0%nat < 2 ^ 64 /\
  exists d,
    gpu_stride (fake_clock 50 10) [1; 2; 3; 0] 4 = Ok d /\
    global_mem d !! 0%nat =
      Some (((2 ^ 64 - (fake_clock 50 10 0%nat - fake_clock 50 10 1%nat)) / 4) mod 2 ^ 32).
Proof.
  split; [exact valid_buffer_4cycle|]. split; [lia|].
  split; [simpl; lia|]. split; [simpl; lia|].
  apply (counter_wraparound (fake_clock 50 10) [1; 2; 3; 0] 4);
    [exact valid_buffer_4cycle|lia|simpl; lia|simpl; lia].
Defined.

(** X10. With a counter that did not go backwards and fewer than
    [2^32 * iterations] cycles between the samples nothing wraps: slot 0
    holds exactly the quotient of [stop - start] by [iterations]. *)
Theorem exact_average_when_it_fits clock data iterations :
  valid_buffer data -> 0 < iterations < 2 ^ 32 ->
  0 <= clock 0%nat <= clock 1%nat -> clock 1%nat < 2 ^ 64 ->
  clock 1%nat - clock 0%nat < 2 ^ 32 * iterations ->
  exists d,
    gpu_stride clock data iterations = Ok d /\
    global_mem d !! 0%nat = Some ((clock 1%nat - clock 0%nat) / iterations).
Proof.
  intros Hv Hit Hmono Hmax Hfit.
  destruct (gpu_stride_valid_slot0 clock data iterations Hv Hit) as (d & Hd & _ & H0).
  exists d. split; [exact Hd|]. rewrite H0. f_equal.
  unfold average_latency. rewrite elapsed_cycles_monotonic by assumption.
  apply to_u32_small. unfold is_u32.
  split; [apply Z.div_pos; lia|apply Z.div_lt_upper_bound; lia].
Qed.

Lemma exact_average_when_it_fits_witness :
  valid_buffer [1; 2; 3; 0] /\ 0 < 1000 < 2 ^ 32 /\
  0 <= fake_clock 100 40100 0%nat <= fake_clock 100 40100 1%nat /\
  fake_clock 100 40100 1%nat < 2 ^ 64 /\
  fake_clock 100 40100 1%nat - fake_clock 100 40100 0%nat < 2 ^ 32 * 1000 /\
  exists d,
    gpu_stride (fake_clock 100 40100) [1; 2; 3; 0] 1000 = Ok d /\
    global_mem d !! 0%nat =
      Some ((fake_clock 100 40100 1%nat - fake_clock 100 40100 0%nat) / 1000).
Proof.
  split; [exact valid_buffer_4cycle|]. split; [lia|].
  split; [simpl; lia|]. split; [simpl; lia|]. split; [simpl; lia|].
  apply (exact_average_when_it_fits (fake_clock 100 40100) [1; 2; 3; 0] 1000);
    [exact valid_buffer_4cycle|lia|simpl; lia|simpl; lia|simpl; lia].
Defined.

(** ** Single-cycle buffers *)

Section SingleCycle.

Variable data : list Z.
Hypothesis Hcycle : valid_single_cycle data.
Hypothesis Hlen : (1 <= length data)%nat.

Let N := length data.

Lemma single_cycle_zero_in : 0 <= 0 < Z.of_nat (length data).
Proof. lia. Qed.

Lemma single_cycle_orbit_range k : 0 <= orbit data k 0 < Z.of_nat (length data).
Proof. apply orbit_in_bounds; [apply Hcycle|apply single_cycle_zero_in]. Qed.

Lemma buffer_at_lookup p :
  0 <= p < Z.of_nat (length data) ->
  data !! Z.to_nat p = Some (buffer_at data p).
Proof.
  intros Hp. unfold buffer_at, mem_at.
  destruct (Z.ltb_spec p 0) as [?|_]; [lia|].
  destruct (lookup_lt_is_Some_2 data (Z.to_nat p)) as [v Hv]; [lia|].
  rewrite Hv. reflexivity.
Qed.

Lemma buffer_at_inj p q :
  0 <= p < Z.of_nat (length data) -> 0 <= q < Z.of_nat (length data) ->
  buffer_at data p = buffer_at data q -> p = q.
Proof.
  intros Hp Hq Heq.
  pose proof (buffer_at_lookup p Hp) as H1.
  pose proof (buffer_at_lookup q Hq) as H2. rewrite <- Heq in H2.
  destruct Hcycle as (_ & Hnd & _).
  pose proof (NoDup_lookup data _ _ _ Hnd H1 H2). lia.
Qed.

Lemma orbit_cancel i m :
  orbit data (i + m) 0 = orbit data i 0 -> orbit data m 0 = 0.
Proof.
  induction i as [|i IH]; intros H; [exact H|].
  apply IH. apply buffer_at_inj; try apply single_cycle_orbit_range. exact H.
Qed.

Lemma orbit_nonzero_before_N m : (1 <= m < N)%nat -> orbit data m 0 <> 0.
Proof.
  intros Hm. destruct Hcycle as (_ & _ & Hnz).
  rewrite Forall_forall in Hnz. apply Hnz.
  apply elem_of_seq. subst N. lia.
Qed.

Lemma orbit_inj_below_N i j :
  (i < N)%nat -> (j < N)%nat -> orbit data i 0 = orbit data j 0 -> i = j.
Proof.
  intros Hi Hj Heq.
  destruct (Nat.lt_trichotomy i j) as [Hlt|[->|Hlt]]; [|reflexivity|].
  - exfalso. apply (orbit_nonzero_before_N (j - i)); [lia|].
    apply (orbit_cancel i). replace (i + (j - i))%nat with j by lia. congruence.
  - exfalso. apply (orbit_nonzero_before_N (i - j)); [lia|].
    apply (orbit_cancel j). replace (j + (i - j))%nat with i by lia. congruence.
Qed.

(** The first [N] positions of the chain are the [N] slots, each once. *)
Lemma orbit_prefix_permutation :
  (fun k => orbit data k 0) <$> seq 0 N ≡ₚ Z.of_nat <$> seq 0 N.
Proof.
  apply submseteq_length_Permutation; [|rewrite !length_fmap; reflexivity].
  apply NoDup_submseteq.
  - apply NoDup_fmap_2_strong; [|apply NoDup_seq].
    intros i j Hi Hj. apply elem_of_seq in Hi, Hj.
    apply orbit_inj_below_N; lia.
  - intros x Hx. apply list_elem_of_fmap in Hx as (k & -> & _).
    pose proof (single_cycle_orbit_range k) as Hr.
    apply list_elem_of_fmap. exists (Z.to_nat (orbit data k 0)).
    split; [lia|]. apply elem_of_seq. subst N. lia.
Qed.

(** After [N] hops the chain is back at its entry. *)
Lemma orbit_closes : orbit data N 0 = 0.
Proof.
  pose proof (single_cycle_orbit_range N) as Hr.
  assert (orbit data N 0 ∈ Z.of_nat <$> seq 0 N) as Hin.
  { apply list_elem_of_fmap. exists (Z.to_nat (orbit data N 0)).
    split; [lia|]. apply elem_of_seq. subst N. lia. }
  rewrite <- orbit_prefix_permutation in Hin.
  apply list_elem_of_fmap in Hin as (k & Hk & Hkin).
  apply elem_of_seq in Hkin.
  destruct k as [|k]; [exact Hk|].
  exfalso. apply (orbit_nonzero_before_N (N - S k)); [lia|].
  apply (orbit_cancel (S k)).
  replace (S k + (N - S k))%nat with N by lia. exact Hk.
Qed.

Lemma orbit_add k m : orbit data (k + m) 0 = orbit data k (orbit data m 0).
Proof. unfold orbit. apply Nat.iter_add. Qed.

Lemma orbit_full_cycles q : orbit data (q * N) 0 = 0.
Proof.
  induction q as [|q IH]; [reflexivity|].
  cbn [Nat.mul]. rewrite Nat.add_comm, orbit_add, orbit_closes. exact IH.
Qed.

Lemma orbit_periodic n : orbit data n 0 = orbit data (n mod N) 0.
Proof.
  rewrite (Nat.div_mod_eq n N) at 1.
  rewrite Nat.add_comm, (Nat.mul_comm N), orbit_add, orbit_full_cycles.
  reflexivity.
Qed.

Lemma hops_full_cycle_permutation : hops data N 0 ≡ₚ Z.of_nat <$> seq 0 N.
Proof.
  rewrite <- orbit_prefix_permutation. unfold hops.
  assert (exists n, N = S n) as [n Hn] by (exists (N - 1)%nat; subst N; lia).
  rewrite Hn. rewrite seq_S. cbn [seq]. rewrite fmap_app, fmap_cons.
  cbn [fmap list_fmap].
  change (orbit data 0 0) with 0. change (1 + n)%nat with (S n).
  replace (orbit data (S n) 0) with 0 by (rewrite <- Hn; symmetry; apply orbit_closes).
  rewrite <- Permutation_cons_append. reflexivity.
Qed.

End SingleCycle.

Lemma sum_Z_permutation l1 l2 : l1 ≡ₚ l2 -> sum_Z l1 = sum_Z l2.
Proof.
  unfold sum_Z. induction 1; simpl; lia.
Qed.

Lemma sum_Z_indices n :
  2 * sum_Z (Z.of_nat <$> seq 0 n) = Z.of_nat n * (Z.of_nat n - 1).
Proof.
  induction n as [|n IH]; [reflexivity|].
  rewrite seq_S, fmap_app, sum_Z_app. simpl (0 + n)%nat.
  cbn [fmap list_fmap sum_Z foldr]. unfold sum_Z in *. lia.
Qed.

Lemma valid_single_cycle_nonempty data :
  valid_single_cycle data -> (1 <= length data)%nat -> valid_buffer data.
Proof.
  intros (Hb & _ & _) Hlen. split; [|exact Hb].
  destruct data; [simpl in Hlen; lia|discriminate].
Qed.

(** X11. On a single-cycle buffer of [N] slots, a phase of [N] hops entered
    at 0 loads every slot index exactly once, ends back on position 0 and
    has added [0 + 1 + ... + (N-1) = N(N-1)/2] to the sink. *)
Theorem full_cycle_visits_every_slot_once dependency d :
  let data := global_mem d in
  let N := length data in
  valid_single_cycle data -> (1 <= N)%nat -> Z.of_nat N < 2 ^ 32 ->
  is_u32 dependency ->
  let hs := hops data N 0 in
  pointer_chase (Z.of_nat N) 0 dependency d =
    Ok ((0, to_u32 (dependency + Z.of_nat N * (Z.of_nat N - 1) / 2)),
        Device data (clock_reads d) (load_log d ++ hs)) /\
  hs ≡ₚ Z.of_nat <$> seq 0 N.
Proof.
  intros data N Hc HN Hmax Hdep hs.
  pose proof (hops_full_cycle_permutation data Hc HN) as Hperm.
  fold N in Hperm. fold hs in Hperm. split; [|exact Hperm].
  rewrite pointer_chase_walk by (try assumption; lia). fold data.
  rewrite Nat2Z.id, (walk_valid data N (valid_single_cycle_nonempty data Hc HN)).
  rewrite last_position_orbit. fold (hops data N 0). fold hs.
  unfold N at 1. rewrite (orbit_closes data Hc HN).
  do 4 f_equal.
  rewrite (sum_Z_permutation _ _ Hperm).
  rewrite <- sum_Z_indices, Z.mul_comm, Z.div_mul by lia. reflexivity.
Qed.

Lemma full_cycle_visits_every_slot_once_witness :
  let d := Device [2; 0; 3; 1] 1 [] in
  let data := global_mem d in
  let N := length data in
  valid_single_cycle data /\ (1 <= N)%nat /\ Z.of_nat N < 2 ^ 32 /\
  is_u32 9 /\
  let hs := hops data N 0 in
  pointer_chase (Z.of_nat N) 0 9 d =
    Ok ((0, to_u32 (9 + Z.of_nat N * (Z.of_nat N - 1) / 2)),
        Device data (clock_reads d) (load_log d ++ hs)) /\
  hs ≡ₚ Z.of_nat <$> seq 0 N.
Proof.
  intros d data N. subst N data d. cbn [global_mem length].
  assert (valid_single_cycle [2; 0; 3; 1]) as Hc.
  { split; [unfold in_bounds; repeat constructor; simpl; lia|].
    split.
    - repeat (constructor; [rewrite ?list_elem_of_In; simpl; intuition discriminate|]).
      constructor.
    - repeat constructor; vm_compute; discriminate. }
  split; [exact Hc|]. split; [simpl; lia|]. split; [simpl; lia|].
  split; [unfold is_u32; lia|].
  apply (full_cycle_visits_every_slot_once 9 (Device [2; 0; 3; 1] 1 []));
    [exact Hc|simpl; lia|simpl; lia|unfold is_u32; lia].
Defined.

(** X12. On a single-cycle buffer of [N] slots the position a phase ends on
    depends only on [iterations mod N]: a phase of [iterations] hops from 0
    ends where a phase of [iterations mod N] hops does. *)
Theorem chain_position_is_periodic iterations dependency d :
  let data := global_mem d in
  let N := length data in
  valid_single_cycle data -> (1 <= N)%nat ->
  0 <= iterations < 2 ^ 32 -> is_u32 dependency ->
  exists p s s' d1 d2,
    pointer_chase iterations 0 dependency d = Ok ((p, s), d1) /\
    pointer_chase (iterations mod Z.of_nat N) 0 dependency d = Ok ((p, s'), d2).
Proof.
  intros data N Hc HN Hit Hdep.
  pose proof (valid_single_cycle_nonempty data Hc HN) as Hv.
  pose proof (Z.mod_pos_bound iterations (Z.of_nat N) ltac:(lia)) as Hm.
  pose proof (Z.mod_le iterations (Z.of_nat N) ltac:(lia) ltac:(lia)) as Hle.
  exists (orbit data (Z.to_nat iterations) 0). do 4 eexists.
  rewrite (pointer_chase_walk iterations) by assumption.
  rewrite (pointer_chase_walk (iterations mod Z.of_nat N)) by (try assumption; lia).
  fold data.
  rewrite !(walk_valid data _ Hv), !last_position_orbit.
  split; [reflexivity|].
  rewrite (orbit_periodic data Hc HN (Z.to_nat iterations)).
  replace (Z.to_nat (iterations mod Z.of_nat N))
    with (Z.to_nat iterations mod length data)%nat.
  - reflexivity.
  - rewrite Z2Nat.inj_mod by lia. rewrite Nat2Z.id. reflexivity.
Qed.

Lemma chain_position_is_periodic_witness :
  let d := Device [1; 2; 3; 0] 0 [] in
  let data := global_mem d in
  let N := length data in
  valid_single_cycle data /\ (1 <= N)%nat /\
  0 <= 9 < 2 ^ 32 /\ is_u32 0 /\
  exists p s s' d1 d2,
    pointer_chase 9 0 0 d = Ok ((p, s), d1) /\
    pointer_chase (9 mod Z.of_nat N) 0 0 d = Ok ((p, s'), d2).
Proof.
  intros d data N. subst N data d. cbn [global_mem length].
  split; [exact valid_single_cycle_4cycle|]. split; [simpl; lia|].
  split; [lia|]. split; [unfold is_u32; lia|].
  apply (chain_position_is_periodic 9 0 (Device [1; 2; 3; 0] 0 []));
    [exact valid_single_cycle_4cycle|simpl; lia|lia|unfold is_u32; lia].
Defined.

(** X13. On a single-cycle buffer, a launch whose [iterations] is a
    positive multiple of the cycle length ends both phases on position 0:
    it completes and the buffer it returns differs from the input in slot 0
    only. *)
Theorem whole_cycles_write_slot_zero_only clock data iterations :
  valid_single_cycle data -> (1 <= length data)%nat ->
  0 < iterations < 2 ^ 32 -> iterations mod Z.of_nat (length data) = 0 ->
  let hs := hops data (Z.to_nat iterations) 0 in
  gpu_stride clock data iterations =
    Ok (Device (<[0%nat := to_u32 (average_latency (clock 0%nat) (clock 1%nat) iterations)]> data)
               2 (hs ++ hs)).
Proof.
  intros Hc HN Hit Hmod hs.
  rewrite gpu_stride_valid
    by (try assumption; apply valid_single_cycle_nonempty; assumption).
  cbv zeta. fold hs.
  rewrite (orbit_periodic data Hc HN (Z.to_nat iterations)).
  replace (Z.to_nat iterations mod length data)%nat with 0%nat.
  - reflexivity.
  - apply Nat2Z.inj. rewrite Nat2Z.inj_mod, Z2Nat.id by lia. simpl. lia.
Qed.

Lemma whole_cycles_write_slot_zero_only_witness :
  valid_single_cycle [1; 2; 3; 0] /\ (1 <= length [1; 2; 3; 0])%nat /\
  0 < 8 < 2 ^ 32 /\ 8 mod Z.of_nat (length ([1; 2; 3; 0] : list Z)) = 0 /\
  let clock := fake_clock 100 612 in
  let data := [1; 2; 3; 0] in
  let hs := hops data (Z.to_nat 8) 0 in
  gpu_stride clock data 8 =
    Ok (Device (<[0%nat := to_u32 (average_latency (clock 0%nat) (clock 1%nat) 8)]> data)
               2 (hs ++ hs)).
Proof.
  split; [exact valid_single_cycle_4cycle|]. split; [simpl; lia|].
  split; [lia|]. split; [reflexivity|].
  apply (whole_cycles_write_slot_zero_only (fake_clock 100 612) [1; 2; 3; 0] 8);
    [exact valid_single_cycle_4cycle|simpl; lia|lia|reflexivity].
Defined.

(** ** The log2 helpers beyond powers of two *)

(** X14. For [x >= 1] the floor helper is the exponent of the largest power
    of two not above [x] and the ceiling helper the exponent of the smallest
    one not below [x]: a power [2^k] is at most [x] exactly when
    [k <= floor], and at least [x] exactly when [ceil <= k]. *)
Theorem log2_helpers_nearest_powers x k :
  1 <= x < 2 ^ 31 -> 0 <= k ->
  let f := Log2.log2_floor_power_of_two x in
  let c := Log2.log2_ceil_power_of_two x in
  (2 ^ k <= x <-> k <= f) /\
  (x <= 2 ^ k <-> c <= k) /\
  x < 2 ^ (f + 1) /\
  (2 <= x -> 2 ^ (c - 1) < x).
Proof.
  intros Hx Hk f c. subst f c.
  rewrite log2_floor_is_log2, log2_ceil_is_log2_up by exact Hx.
  split; [apply Z.log2_le_pow2; lia|].
  split; [apply Z.log2_up_le_pow2; lia|].
  split.
  - pose proof (Z.log2_spec x ltac:(lia)) as [_ H].
    replace (Z.log2 x + 1) with (Z.succ (Z.log2 x)) by lia. exact H.
  - intros H2. pose proof (Z.log2_up_spec x ltac:(lia)) as [H _].
    replace (Z.log2_up x - 1) with (Z.pred (Z.log2_up x)) by lia. exact H.
Qed.

Lemma log2_helpers_nearest_powers_witness :
  1 <= 1000 < 2 ^ 31 /\ 0 <= 10 /\
  let f := Log2.log2_floor_power_of_two 1000 in
  let c := Log2.log2_ceil_power_of_two 1000 in
  (2 ^ 10 <= 1000 <-> 10 <= f) /\
  (1000 <= 2 ^ 10 <-> c <= 10) /\
  1000 < 2 ^ (f + 1) /\
  (2 <= 1000 -> 2 ^ (c - 1) < 1000).
Proof.
  split; [lia|]. split; [lia|].
  apply (log2_helpers_nearest_powers 1000 10); lia.
Defined.

(** X15. For [1 <= x <= y] both helpers are monotone, and at any [x >= 1]
    the ceiling exceeds the floor by at most one. *)
Theorem log2_helpers_monotone x y :
  1 <= x -> x <= y -> y < 2 ^ 31 ->
  Log2.log2_floor_power_of_two x <= Log2.log2_floor_power_of_two y /\
  Log2.log2_ceil_power_of_two x <= Log2.log2_ceil_power_of_two y /\
  Log2.log2_floor_power_of_two x <= Log2.log2_ceil_power_of_two x
    <= Log2.log2_floor_power_of_two x + 1.
Proof.
  intros H1 Hxy Hy.
  rewrite !log2_floor_is_log2, !log2_ceil_is_log2_up by lia.
  split; [apply Z.log2_le_mono; exact Hxy|].
  split; [apply Z.log2_up_le_mono; exact Hxy|].
  pose proof (Z.le_log2_log2_up x).
  pose proof (Z.le_log2_up_succ_log2 x). lia.
Qed.

Lemma log2_helpers_monotone_witness :
  1 <= 9 /\ 9 <= 1000 /\ 1000 < 2 ^ 31 /\
  Log2.log2_floor_power_of_two 9 <= Log2.log2_floor_power_of_two 1000 /\
  Log2.log2_ceil_power_of_two 9 <= Log2.log2_ceil_power_of_two 1000 /\
  Log2.log2_floor_power_of_two 9 <= Log2.log2_ceil_power_of_two 9
    <= Log2.log2_floor_power_of_two 9 + 1.
Proof.
  split; [lia|]. split; [lia|]. split; [lia|].
  apply (log2_helpers_monotone 9 1000); lia.
Defined.

Lemma clz_negative x : - 2 ^ 31 <= x < 0 -> Log2.__clz x = 0.
Proof.
  intros Hx. unfold Log2.__clz.
  assert (to_u32 x = x + 2 ^ 32) as ->.
  { unfold to_u32. replace x with (x + 2 ^ 32 + (-1) * 2 ^ 32) at 1 by lia.
    rewrite Z.mod_add by lia. apply Z.mod_small. lia. }
  rewrite clz_from_log2 by (change (Z.of_nat 32) with 32; lia).
  assert (Z.log2 (x + 2 ^ 32) = 31) as ->.
  { apply Z.log2_unique; [lia|]. change (2 ^ (31 + 1)) with (2 ^ 32). lia. }
  reflexivity.
Qed.

(** X16. Outside their domain the helpers still return, but not a
    logarithm: for every negative [int] the floor helper gives 31, at 0 it
    gives -1, and for every [x <= 0] above [INT_MIN] the ceiling helper
    gives 32. *)
Theorem log2_helpers_nonpositive x :
  - 2 ^ 31 < x <= 0 ->
  Log2.log2_floor_power_of_two x = (if x =? 0 then -1 else 31) /\
  Log2.log2_ceil_power_of_two x = 32.
Proof.
  intros Hx. unfold Log2.log2_floor_power_of_two, Log2.log2_ceil_power_of_two.
  rewrite to_i32_small by (unfold is_i32; lia).
  rewrite (clz_negative (x - 1)) by lia.
  split; [|reflexivity].
  destruct (Z.eqb_spec x 0) as [->|Hne]; [reflexivity|].
  rewrite clz_negative by lia. reflexivity.
Qed.

Lemma log2_helpers_nonpositive_witness :
  - 2 ^ 31 < -8 <= 0 /\
  Log2.log2_floor_power_of_two (-8) = (if -8 =? 0 then -1 else 31) /\
  Log2.log2_ceil_power_of_two (-8) = 32.
Proof.
  split; [lia|]. apply (log2_helpers_nonpositive (-8)). lia.
Defined.

(** X17. Round trip with the powers of two an [int] holds: both helpers
    return [k] at [2^k]; one below a power the floor drops to [k - 1], one
    above it the ceiling rises to [k + 1]. *)
Theorem log2_helpers_at_powers k :
  0 <= k <= 30 ->
  Log2.log2_floor_power_of_two (2 ^ k) = k /\
  Log2.log2_ceil_power_of_two (2 ^ k) = k /\
  (1 <= k -> Log2.log2_floor_power_of_two (2 ^ k - 1) = k - 1) /\
  (1 <= k <= 29 -> Log2.log2_ceil_power_of_two (2 ^ k + 1) = k + 1).
Proof.
  intros Hk.
  assert (1 <= 2 ^ k <= 2 ^ 30) as Hp.
  { split; [apply Z.lt_pred_le; apply Z.pow_pos_nonneg; lia|apply Z.pow_le_mono_r; lia]. }
  split; [rewrite log2_floor_is_log2 by lia; apply Z.log2_pow2; lia|].
  split; [rewrite log2_ceil_is_log2_up by lia; apply Z.log2_up_pow2; lia|].
  split.
  - intros H1.
    assert (2 * 2 ^ (k - 1) = 2 ^ k) as Hd.
    { rewrite <- Z.pow_succ_r by lia. f_equal. lia. }
    assert (0 < 2 ^ (k - 1)) as Hpos by (apply Z.pow_pos_nonneg; lia).
    rewrite log2_floor_is_log2 by lia.
    apply Z.log2_unique; [lia|].
    replace (Z.succ (k - 1)) with k by lia. lia.
  - intros H1.
    assert (2 ^ k < 2 ^ 30) as Hlt by (apply Z.pow_lt_mono_r; lia).
    rewrite log2_ceil_is_log2_up by lia.
    rewrite Z.log2_up_eqn by lia.
    replace (Z.pred (2 ^ k + 1)) with (2 ^ k) by lia.
    rewrite Z.log2_pow2 by lia. lia.
Qed.

Lemma log2_helpers_at_powers_witness :
  0 <= 12 <= 30 /\
  Log2.log2_floor_power_of_two (2 ^ 12) = 12 /\
  Log2.log2_ceil_power_of_two (2 ^ 12) = 12 /\
  (1 <= 12 -> Log2.log2_floor_power_of_two (2 ^ 12 - 1) = 12 - 1) /\
  (1 <= 12 <= 29 -> Log2.log2_ceil_power_of_two (2 ^ 12 + 1) = 12 + 1).
Proof.
  split; [lia|]. apply (log2_helpers_at_powers 12). lia.
Defined.
